(** * The shared contact-form coordinator of the Call-Intellect site

    A shallow embedding of [ContactFormContext] (the provider component with
    its two [useState] cells and the [openForm] / [closeForm] callbacks), of
    the [App] shell that mounts it and of the [Contacts] page that triggers
    it, followed by the properties the specification states about them. *)

From Stdlib Require Import String List Bool Arith Lia.
Import ListNotations.
Open Scope string_scope.
Open Scope list_scope.

(** ** JavaScript values and calling convention *)

Module JS.

(** The values a call site can pass.  [VOpaque] stands for every other
    value that is not callable (a number, a symbol, an object such as a
    click event); the coordinator never inspects it.  Function values are
    left out: a state setter treats them as updaters, not as values. *)
Inductive value : Type :=
| VUndefined
| VNull
| VBool (b : bool)
| VStr (s : string)
| VOpaque (id : nat).

(** The [n]-th actual argument of a call; a missing one reads [undefined]. *)
Definition arg (n : nat) (args : list value) : value := nth n args VUndefined.

(** A default parameter initialiser [(p = d)]: used exactly when the
    argument is [undefined]. *)
Definition default_param (v d : value) : value :=
  match v with
  | VUndefined => d
  | _ => v
  end.

End JS.
Import JS.

(** ** The two state cells and their update queues *)

(** What a render of [ContactFormProvider] reads from its hooks and hands to
    every consumer through the context: [{ isOpen, formType }]. *)
Record hooks : Type := mkHooks {
  isOpen : bool;
  formType : value
}.

(** During an event the rendered values stay as they are; each setter call
    appends to the queue of its own cell. *)
Record fiber : Type := mkFiber {
  memo : hooks;
  qIsOpen : list bool;
  qFormType : list value
}.

(** [useState(false)] and [useState('general')] on mount. *)
Definition initial : hooks :=
  {| isOpen := false; formType := VStr "general" |}.

(** Event handlers thread the fiber. *)
Definition handler (A : Type) : Type := fiber -> A * fiber.

Definition ret {A : Type} (a : A) : handler A := fun f => (a, f).

Definition bind {A B : Type} (m : handler A) (k : A -> handler B) : handler B :=
  fun f => let (a, f') := m f in k a f'.

Notation "m ;; k" := (bind m (fun _ => k))
  (at level 61, right associativity).

Definition setIsOpen (b : bool) : handler unit :=
  fun f => (tt, {| memo := memo f;
                   qIsOpen := qIsOpen f ++ [b];
                   qFormType := qFormType f |}).

Definition setFormType (v : value) : handler unit :=
  fun f => (tt, {| memo := memo f;
                   qIsOpen := qIsOpen f;
                   qFormType := qFormType f ++ [v] |}).

(** The reducer behind [useState] for a plain (non-function) action. *)
Definition basicStateReducer {A : Type} (state action : A) : A := action.

Definition begin_event (s : hooks) : fiber :=
  {| memo := s; qIsOpen := []; qFormType := [] |}.

(** The render that follows an event drains both queues in call order. *)
Definition render (f : fiber) : hooks :=
  {| isOpen := fold_left basicStateReducer (qIsOpen f) (isOpen (memo f));
     formType := fold_left basicStateReducer (qFormType f) (formType (memo f)) |}.

Definition dispatch (h : handler unit) (s : hooks) : hooks :=
  render (snd (h (begin_event s))).

(** ** The coordinator callbacks *)

(** [const openForm = (type = 'general') => { setFormType(type); setIsOpen(true) }] *)
Definition openForm (args : list value) : handler unit :=
  let type := default_param (arg 0 args) (VStr "general") in
  setFormType type ;;
  setIsOpen true.

(** [const closeForm = () => setIsOpen(false)] *)
Definition closeForm (args : list value) : handler unit :=
  setIsOpen false.

(** A call on the coordinator, with its actual arguments. *)
Inductive call : Type :=
| Open (args : list value)
| Close.

Definition perform (c : call) : handler unit :=
  match c with
  | Open args => openForm args
  | Close => closeForm []
  end.

(** Several calls made from one event handler share one render. *)
Fixpoint perform_all (cs : list call) : handler unit :=
  match cs with
  | [] => ret tt
  | c :: cs' => perform c ;; perform_all cs'
  end.

(** A session is a list of events, each a batch of calls. *)
Definition run_events (s : hooks) (events : list (list call)) : hooks :=
  fold_left (fun st batch => dispatch (perform_all batch) st) events s.

(** One call per event, as with clicks on separate buttons. *)
Definition run (s : hooks) (cs : list call) : hooks :=
  fold_left (fun st c => dispatch (perform c) st) cs s.

(** The intents the trigger sites use. *)
Definition known_intents : list string := ["general"; "demo"; "calculate"].

Definition is_known_intent (v : value) : bool :=
  match v with
  | VStr s => existsb (String.eqb s) known_intents
  | _ => false
  end.

(** The arguments of the most recent [Open] in a list of calls. *)
Fixpoint most_recent_open (cs : list call) : option (list value) :=
  match cs with
  | [] => None
  | c :: cs' =>
      match most_recent_open cs' with
      | Some a => Some a
      | None => match c with Open a => Some a | Close => None end
      end
  end.

(** ** Element trees *)

(** What the components return.  Tags and nesting are kept, and so are the
    handlers and the props of the form; class names and text are dropped.
    [Component] is an imported component whose body is in another file. *)
#[local] Unset Elimination Schemes.
Inductive element : Type :=
| El (tag : string) (children : list element)
| Component (name : string)
| Button (onClick : call) (children : list element)
| Route (path : string) (elem : element)
| Provider (ctx : hooks) (children : list element)
| ContactForm (open : bool) (onClose : call) (type : value).
#[local] Set Elimination Schemes.

(** [ContactFormProvider]: the context provider around the children,
    followed by the form, which receives the two state values and
    [closeForm]. *)
Definition ContactFormProvider (s : hooks) (children : list element) : element :=
  Provider s (children ++ [ContactForm (isOpen s) Close (formType s)]).

(** The first route whose path is the location; [Routes] renders its element
    and nothing when no route matches. *)
Fixpoint matchRoutes (location : string) (rs : list element) : option element :=
  match rs with
  | [] => None
  | Route p e :: rs' =>
      if String.eqb p location then Some e else matchRoutes location rs'
  | _ :: rs' => matchRoutes location rs'
  end.

Definition Routes (location : string) (children : list element) : list element :=
  match matchRoutes location children with
  | Some e => [e]
  | None => []
  end.

(** The [Contacts] page; [openForm] comes from [useContactForm()]. *)
Definition Contacts : element :=
  El "div"
    [ Component "SEOHead";
      El "section"
        [ El "div" [ El "div" [ El "h1" []; El "p" [] ] ] ];
      El "section"
        [ El "div"
            [ El "div"
                [ El "div"
                    [ El "h2" [];
                      Button (Open [VStr "general"]) [] ];
                  El "div"
                    [ El "h2" [];
                      El "div"
                        [ El "div"
                            [ Component "Phone";
                              El "div" [ El "h3" []; El "a" []; El "p" [] ] ];
                          El "div"
                            [ Component "MessageCircle";
                              El "div" [ El "h3" []; El "p" []; El "p" [] ] ];
                          El "div"
                            [ Component "Mail";
                              El "div" [ El "h3" []; El "a" []; El "p" [] ] ];
                          El "div"
                            [ Component "Clock";
                              El "div" [ El "h3" []; El "p" []; El "p" [] ] ] ];
                      El "div"
                        [ El "h3" [];
                          El "div"
                            [ Button (Open [VStr "demo"]) [];
                              Button (Open [VStr "general"]) [];
                              Button (Open [VStr "calculate"]) [] ] ] ] ] ] ];
      El "section"
        [ El "div"
            [ El "h2" [];
              El "div"
                [ El "div" [ El "h3" []; El "p" [] ];
                  El "div" [ El "h3" []; El "p" [] ];
                  El "div" [ El "h3" []; El "p" [] ];
                  El "div" [ El "h3" []; El "p" [] ] ] ] ] ].

(** The route table of [App]. *)
Definition routes : list element :=
  [ Route "/" (Component "Home");
    Route "/sales" (Component "Sales");
    Route "/marketing" (Component "Marketing");
    Route "/market-analysis" (Component "MarketAnalysis");
    Route "/blog" (Component "Blog");
    Route "/contacts" Contacts;
    Route "/admin" (Component "AdminPanel");
    Route "/personal-data" (Component "PersonalData") ].

(** [App], rendered at a location with the provider holding state [s]. *)
Definition App (s : hooks) (location : string) : element :=
  El "HelmetProvider"
    [ El "Router"
        [ ContactFormProvider s
            [ El "div"
                [ Component "Header";
                  El "main" (Routes location routes);
                  Component "Footer" ] ] ] ].

(** *** Measures on trees *)

Definition children_of (e : element) : list element :=
  match e with
  | El _ ks | Button _ ks | Provider _ ks => ks
  | Route _ e' => [e']
  | Component _ | ContactForm _ _ _ => []
  end.

Fixpoint subtree (path : list nat) (e : element) : option element :=
  match path with
  | [] => Some e
  | i :: rest =>
      match nth_error (children_of e) i with
      | Some k => subtree rest k
      | None => None
      end
  end.

(** Number of mounted form instances. *)
Fixpoint count_forms (e : element) : nat :=
  match e with
  | El _ ks | Button _ ks | Provider _ ks => list_sum (map count_forms ks)
  | Route _ e' => count_forms e'
  | Component _ => 0
  | ContactForm _ _ _ => 1
  end.

(** Number of context providers, that is of coordinator instances. *)
Fixpoint count_providers (e : element) : nat :=
  match e with
  | El _ ks | Button _ ks => list_sum (map count_providers ks)
  | Provider _ ks => S (list_sum (map count_providers ks))
  | Route _ e' => count_providers e'
  | Component _ | ContactForm _ _ _ => 0
  end.

(** [useContext] reads the nearest provider above.  For every place a
    trigger can sit (a button with a handler, an imported component), the
    context found there; [None] when no provider encloses it. *)
Fixpoint contexts (above : option hooks) (e : element) : list (option hooks) :=
  match e with
  | El _ ks => flat_map (contexts above) ks
  | Button _ ks => above :: flat_map (contexts above) ks
  | Provider c ks => flat_map (contexts (Some c)) ks
  | Route _ e' => contexts above e'
  | Component _ => [above]
  | ContactForm _ _ _ => []
  end.

(** The calls wired to the buttons of a tree. *)
Fixpoint triggers (e : element) : list call :=
  match e with
  | El _ ks | Provider _ ks => flat_map triggers ks
  | Button c ks => c :: flat_map triggers ks
  | Route _ e' => triggers e'
  | Component _ | ContactForm _ _ _ => []
  end.

(** The last call of a list, if there is one. *)
Fixpoint last_call (cs : list call) : option call :=
  match cs with
  | [] => None
  | [c] => Some c
  | _ :: cs' => last_call cs'
  end.

(** ** Queues and renders *)

(** A setter leaves the rendered values alone until the next render. *)
Lemma setFormType_memo (v : value) (f : fiber) :
  memo (snd (setFormType v f)) = memo f.
Proof. reflexivity. Qed.

Lemma setIsOpen_memo (b : bool) (f : fiber) :
  memo (snd (setIsOpen b f)) = memo f.
Proof. reflexivity. Qed.

Lemma perform_memo (c : call) (f : fiber) :
  memo (snd (perform c f)) = memo f.
Proof. destruct c; reflexivity. Qed.

Lemma dispatch_openForm (args : list value) (s : hooks) :
  dispatch (openForm args) s =
  {| isOpen := true;
     formType := default_param (arg 0 args) (VStr "general") |}.
Proof. reflexivity. Qed.

Lemma dispatch_closeForm (args : list value) (s : hooks) :
  dispatch (closeForm args) s = {| isOpen := false; formType := formType s |}.
Proof. reflexivity. Qed.

(** Rendering after one more call is the same as rendering first and giving
    the call an event of its own. *)
Lemma render_perform (c : call) (f : fiber) :
  render (snd (perform c f)) = dispatch (perform c) (render f).
Proof.
  destruct c as [args|]; unfold dispatch, render; cbn;
    rewrite ?fold_left_app; reflexivity.
Qed.

Lemma perform_all_app (cs1 cs2 : list call) (f : fiber) :
  snd (perform_all (cs1 ++ cs2) f) =
  snd (perform_all cs2 (snd (perform_all cs1 f))).
Proof.
  revert f; induction cs1 as [|c cs1 IH]; intro f; [reflexivity|].
  cbn [app perform_all]. unfold bind.
  destruct (perform c f) as [u f']. apply IH.
Qed.

Lemma perform_all_single (c : call) (f : fiber) :
  snd (perform_all [c] f) = snd (perform c f).
Proof.
  cbn [perform_all]. unfold bind, ret.
  destruct (perform c f) as [u f']. reflexivity.
Qed.

Lemma dispatch_batch_snoc (cs : list call) (c : call) (s : hooks) :
  dispatch (perform_all (cs ++ [c])) s =
  dispatch (perform c) (dispatch (perform_all cs) s).
Proof.
  unfold dispatch at 1 3.
  rewrite perform_all_app, perform_all_single.
  apply render_perform.
Qed.

Lemma dispatch_perform (c : call) (s : hooks) :
  dispatch (perform c) s =
  match c with
  | Open args =>
      {| isOpen := true;
         formType := default_param (arg 0 args) (VStr "general") |}
  | Close => {| isOpen := false; formType := formType s |}
  end.
Proof. destruct c; reflexivity. Qed.

Lemma run_formType (cs : list call) (s : hooks) :
  formType (run s cs) =
  match most_recent_open cs with
  | Some args => default_param (arg 0 args) (VStr "general")
  | None => formType s
  end.
Proof.
  revert s; induction cs as [|c cs IH]; intro s; [reflexivity|].
  change (run s (c :: cs)) with (run (dispatch (perform c) s) cs).
  rewrite IH. cbn [most_recent_open].
  destruct (most_recent_open cs); [reflexivity|].
  destruct c; reflexivity.
Qed.

(** ** The page shell *)

Lemma Routes_cases (location : string) :
  In (Routes location routes)
     [ []; [Component "Home"]; [Component "Sales"]; [Component "Marketing"];
       [Component "MarketAnalysis"]; [Component "Blog"]; [Contacts];
       [Component "AdminPanel"]; [Component "PersonalData"] ].
Proof.
  unfold Routes, routes. cbn [matchRoutes].
  repeat match goal with
         | |- context [String.eqb ?p location] =>
             destruct (String.eqb p location)
         end; cbn [In]; tauto.
Qed.

Ltac route_cases location :=
  let H := fresh "H" in
  pose proof (Routes_cases location) as H; cbn [In] in H;
  repeat match type of H with
         | _ \/ _ => destruct H as [H|H]
         end;
  [ .. | contradiction ].

(** ** The coordinator at work on concrete calls *)

Example open_demo_from_initial :
  dispatch (openForm [VStr "demo"]) initial =
  {| isOpen := true; formType := VStr "demo" |}.
Proof. reflexivity. Qed.

Example open_passes_click_event :
  dispatch (openForm [VOpaque 7]) initial =
  {| isOpen := true; formType := VOpaque 7 |}.
Proof. reflexivity. Qed.

Example demo_then_calculate :
  run initial [Open [VStr "demo"]; Open [VStr "calculate"]] =
  {| isOpen := true; formType := VStr "calculate" |}.
Proof. reflexivity. Qed.

Example open_then_close_keeps_type :
  run initial [Open [VStr "demo"]; Close] =
  {| isOpen := false; formType := VStr "demo" |}.
Proof. reflexivity. Qed.

(** Every button of the [Contacts] page passes one of the three intents. *)
Lemma Contacts_triggers_known :
  Forall (fun c => match c with
                   | Open [v] => is_known_intent v = true
                   | _ => False
                   end) (triggers Contacts).
Proof. repeat constructor. Qed.

(** ** Properties of the coordinator *)

(** C1, as the specification words it, fails: the string ['foo'] lies
    outside the three intents, and [openForm('foo')] stores it as it is. *)
Lemma openForm_foo_not_coerced :
  is_known_intent (VStr "foo") = false /\
  formType (dispatch (openForm [VStr "foo"]) initial) = VStr "foo" /\
  formType (dispatch (openForm [VStr "foo"]) initial) <> VStr "general".
Proof. repeat split; [reflexivity .. | discriminate]. Qed.

(** C1 (amended): [openForm] does not validate its argument.  For a value
    [v] outside the three intents, the form becomes visible and the stored
    intent is [v] itself; only [undefined] is replaced by ['general'], by the
    default parameter.  The call always completes. *)
Theorem openForm_unknown_intent (v : value) (s : hooks)
  (Hunknown : is_known_intent v = false) :
  isOpen (dispatch (openForm [v]) s) = true /\
  (v = VUndefined ->
   formType (dispatch (openForm [v]) s) = VStr "general") /\
  (v <> VUndefined ->
   formType (dispatch (openForm [v]) s) = v).
Proof.
  rewrite dispatch_openForm. cbn [isOpen formType arg nth].
  split; [reflexivity|]. split.
  - intros ->. reflexivity.
  - intro Hv. destruct v; try reflexivity. contradiction.
Qed.

Lemma openForm_unknown_intent_witness :
  is_known_intent (VStr "foo") = false /\
  VStr "foo" <> VUndefined /\
  formType (dispatch (openForm [VStr "foo"]) initial) = VStr "foo".
Proof.
  split; [reflexivity|]. split; [discriminate|].
  apply (openForm_unknown_intent (VStr "foo") initial); [reflexivity|].
  discriminate.
Defined.

(** C2: for every intent [i] and every prior state, [openForm(i)] makes the
    form visible with intent [i] in a single render.  While the handler runs,
    after the first setter and after both, consumers still read the prior
    state; the one render that follows shows both fields updated. *)
Theorem openForm_atomic (i : string) (s : hooks) :
  memo (snd (setFormType (VStr i) (begin_event s))) = s /\
  memo (snd (openForm [VStr i] (begin_event s))) = s /\
  dispatch (openForm [VStr i]) s = {| isOpen := true; formType := VStr i |}.
Proof. repeat split. Qed.

(** C3: a second [openForm] while the form is open wins.  Whether the two
    calls come from two events or from one handler, the form stays visible
    and shows the second intent. *)
Theorem openForm_last_call_wins (a b : string) (s : hooks) :
  run s [Open [VStr a]; Open [VStr b]] =
    {| isOpen := true; formType := VStr b |} /\
  run_events s [[Open [VStr a]; Open [VStr b]]] =
    {| isOpen := true; formType := VStr b |} /\
  isOpen (run s [Open [VStr a]]) = true.
Proof. repeat split. Qed.

(** C4: after any sequence of [openForm] / [closeForm] calls, however they
    are grouped into events, the state is what the last call alone makes of
    the state before it: [openForm] gives a visible form with its own
    intent, [closeForm] hides the form and keeps the intent. *)
Theorem last_call_alone
  (s : hooks) (events : list (list call)) (batch : list call) (c : call) :
  run_events s (events ++ [batch ++ [c]]) =
    dispatch (perform c) (run_events s (events ++ [batch])) /\
  run_events s (events ++ [batch ++ [c]]) =
    match c with
    | Open args =>
        {| isOpen := true;
           formType := default_param (arg 0 args) (VStr "general") |}
    | Close =>
        {| isOpen := false;
           formType := formType (run_events s (events ++ [batch])) |}
    end.
Proof.
  assert (Hstep : run_events s (events ++ [batch ++ [c]]) =
                  dispatch (perform c) (run_events s (events ++ [batch]))).
  { unfold run_events. rewrite !fold_left_app. cbn [fold_left].
    apply dispatch_batch_snoc. }
  split; [exact Hstep|].
  rewrite Hstep. apply dispatch_perform.
Qed.

(** C5: [openForm()] without an argument shows the form with intent
    ['general'], from every prior state; an explicit [undefined] does the
    same. *)
Theorem openForm_default (s : hooks) :
  dispatch (openForm []) s = {| isOpen := true; formType := VStr "general" |} /\
  dispatch (openForm [VUndefined]) s =
    {| isOpen := true; formType := VStr "general" |}.
Proof. split; reflexivity. Qed.

(** C6: [closeForm()] hides the form, from every prior state and whatever
    arguments the caller passes. *)
Theorem closeForm_hides (s : hooks) (args : list value) :
  isOpen (dispatch (closeForm args) s) = false.
Proof. reflexivity. Qed.

(** C7: [closeForm()] on a form that is already hidden changes nothing, and
    closing twice is the same as closing once. *)
Theorem closeForm_noop (s : hooks) (args : list value)
  (Hclosed : isOpen s = false) :
  dispatch (closeForm args) s = s /\
  forall s' : hooks,
    dispatch (closeForm args) (dispatch (closeForm args) s') =
    dispatch (closeForm args) s'.
Proof.
  split; [|reflexivity].
  rewrite dispatch_closeForm. destruct s as [o t].
  cbn in Hclosed |- *. now rewrite Hclosed.
Qed.

Lemma closeForm_noop_witness :
  isOpen initial = false /\ dispatch (closeForm []) initial = initial.
Proof.
  split; [reflexivity|].
  apply (closeForm_noop initial [] eq_refl).
Defined.

(** C8: at every location the shell mounts exactly one form and exactly one
    provider.  The form sits at a fixed place next to the page wrapper, not
    inside the routed content, so navigation does not remount it; every
    trigger site, in the header, the footer or the routed page, reads the
    context of that one provider. *)
Theorem single_form_at_root (s : hooks) (location : string) :
  count_forms (App s location) = 1 /\
  count_providers (App s location) = 1 /\
  subtree [0; 0; 1] (App s location) =
    Some (ContactForm (isOpen s) Close (formType s)) /\
  count_forms (El "main" (Routes location routes)) = 0 /\
  Forall (fun c => c = Some s) (contexts None (App s location)).
Proof.
  unfold App, ContactFormProvider.
  route_cases location;
    match goal with H : _ = Routes _ _ |- _ => rewrite <- H end;
    repeat split; repeat constructor.
Qed.

(** C9: on mount, before any call, the form is hidden and the intent is
    ['general']; the first render hands exactly that to the form. *)
Theorem initial_state :
  isOpen initial = false /\
  formType initial = VStr "general" /\
  run initial [] = initial /\
  forall location : string,
    subtree [0; 0; 1] (App initial location) =
    Some (ContactForm false Close (VStr "general")).
Proof. repeat split. Qed.

(** C10: [closeForm] touches [isOpen] only.  The intent survives a close, so
    after any calls from the initial state it is the one of the most recent
    [openForm], or ['general'] when there was none. *)
Theorem closeForm_keeps_formType :
  (forall (s : hooks) (args : list value),
      formType (dispatch (closeForm args) s) = formType s) /\
  (forall cs : list call,
      formType (run initial (cs ++ [Close])) =
      match most_recent_open cs with
      | Some args => default_param (arg 0 args) (VStr "general")
      | None => VStr "general"
      end).
Proof.
  split; [reflexivity|].
  intro cs. unfold run. rewrite fold_left_app. cbn [fold_left].
  rewrite dispatch_perform. cbn [formType].
  apply (run_formType cs initial).
Qed.

(** ** Sessions *)

Lemma render_begin_event (s : hooks) : render (begin_event s) = s.
Proof. destruct s; reflexivity. Qed.

Lemma run_snoc (s : hooks) (cs : list call) (c : call) :
  run s (cs ++ [c]) = dispatch (perform c) (run s cs).
Proof. unfold run. rewrite fold_left_app. reflexivity. Qed.

Lemma run_app (s : hooks) (cs1 cs2 : list call) :
  run s (cs1 ++ cs2) = run (run s cs1) cs2.
Proof. unfold run. apply fold_left_app. Qed.

(** One handler making several calls ends where the same calls, one event
    each, end. *)
Lemma dispatch_perform_all (cs : list call) (s : hooks) :
  dispatch (perform_all cs) s = run s cs.
Proof.
  induction cs as [|c cs IH] using rev_ind.
  - apply render_begin_event.
  - rewrite dispatch_batch_snoc, run_snoc, IH. reflexivity.
Qed.

Lemma last_call_snoc (cs : list call) (c : call) :
  last_call (cs ++ [c]) = Some c.
Proof.
  induction cs as [|c' cs IH]; [reflexivity|].
  cbn [app last_call]. rewrite IH.
  destruct cs; reflexivity.
Qed.

Lemma run_isOpen (cs : list call) (s : hooks) :
  isOpen (run s cs) =
  match last_call cs with
  | Some (Open _) => true
  | Some Close => false
  | None => isOpen s
  end.
Proof.
  destruct cs as [|c cs] using rev_ind; [reflexivity|].
  rewrite run_snoc, last_call_snoc, dispatch_perform.
  destruct c; reflexivity.
Qed.

Lemma most_recent_open_In (cs : list call) (args : list value) :
  most_recent_open cs = Some args -> In (Open args) cs.
Proof.
  induction cs as [|c cs IH]; [discriminate|].
  cbn [most_recent_open].
  destruct (most_recent_open cs) as [a|].
  - intro H. right. apply IH. exact H.
  - destruct c as [a|]; [|discriminate].
    intro H. left. congruence.
Qed.

Lemma run_events_concat (s : hooks) (events : list (list call)) :
  run_events s events = run s (concat events).
Proof.
  revert s; induction events as [|batch events IH]; intro s; [reflexivity|].
  cbn [concat]. rewrite run_app, <- IH, <- dispatch_perform_all.
  reflexivity.
Qed.


(** X1: the state after any calls, from any state, in closed form.  The
    form is visible exactly when the last call was an [openForm]; the intent
    is the defaulted argument of the most recent [openForm]; with no call of
    the kind, the field is as it was. *)
Theorem session_closed_form (s : hooks) (cs : list call) :
  run s cs =
  {| isOpen := match last_call cs with
               | Some (Open _) => true
               | Some Close => false
               | None => isOpen s
               end;
     formType := match most_recent_open cs with
                 | Some args => default_param (arg 0 args) (VStr "general")
                 | None => formType s
                 end |}.
Proof.
  rewrite <- run_isOpen, <- run_formType.
  destruct (run s cs); reflexivity.
Qed.

(** X2: how calls are grouped into event handlers does not matter for the
    state a session ends in: any grouping ends where one event per call
    ends, so two groupings of the same calls end in the same state. *)
Theorem batching_irrelevant (s : hooks) (events : list (list call)) :
  run_events s events = run s (concat events) /\
  forall events' : list (list call),
    concat events' = concat events ->
    run_events s events' = run_events s events.
Proof.
  split; [apply run_events_concat|].
  intros events' H. rewrite !run_events_concat, H. reflexivity.
Qed.

Lemma batching_irrelevant_witness :
  run_events initial [[Open [VStr "demo"]]; [Close]] =
  run_events initial [[Open [VStr "demo"]; Close]].
Proof.
  apply (proj2 (batching_irrelevant initial [[Open [VStr "demo"]; Close]])).
  reflexivity.
Defined.


(** X4: as long as the only calls are clicks on the buttons of the
    [Contacts] page and closes, a state whose intent is one of the three
    keeps an intent among the three. *)
Theorem Contacts_session_known_intent (s : hooks) (events : list (list call))
  (Hstart : is_known_intent (formType s) = true)
  (Hsites : Forall (fun c => c = Close \/ In c (triggers Contacts))
                   (concat events)) :
  is_known_intent (formType (run_events s events)) = true.
Proof.
  rewrite run_events_concat, run_formType.
  destruct (most_recent_open (concat events)) as [args|] eqn:E;
    [|exact Hstart].
  apply most_recent_open_In in E.
  rewrite Forall_forall in Hsites.
  destruct (Hsites _ E) as [H|H]; [discriminate|].
  cbn in H.
  repeat match type of H with
         | _ \/ _ => destruct H as [H|H]
         end;
    try contradiction; injection H as <-; reflexivity.
Qed.

Lemma Contacts_session_known_intent_witness :
  is_known_intent
    (formType (run_events initial [[Open [VStr "demo"]]; [Close]])) = true.
Proof.
  apply (Contacts_session_known_intent initial
           [[Open [VStr "demo"]]; [Close]]).
  - reflexivity.
  - cbn [concat app]. constructor; [|constructor; [left; reflexivity|constructor]].
    right. cbn. tauto.
Defined.

(** X5: [openForm] on a form that is already open with the same intent
    changes nothing. *)
Theorem openForm_same_intent_noop (s : hooks) (args : list value)
  (Hopen : isOpen s = true)
  (Hsame : formType s = default_param (arg 0 args) (VStr "general")) :
  dispatch (openForm args) s = s.
Proof.
  rewrite dispatch_openForm. destruct s as [o t].
  cbn in Hopen, Hsame. subst o. rewrite <- Hsame. reflexivity.
Qed.

Lemma openForm_same_intent_noop_witness :
  dispatch (openForm [VStr "demo"])
           {| isOpen := true; formType := VStr "demo" |} =
  {| isOpen := true; formType := VStr "demo" |}.
Proof.
  apply (openForm_same_intent_noop
           {| isOpen := true; formType := VStr "demo" |} [VStr "demo"]);
    reflexivity.
Defined.

(** X6: [closeForm] does not undo [openForm].  Opening and then closing
    gives back the prior state exactly when the form was hidden and already
    held the intent that was asked for. *)
Theorem open_close_round_trip (s : hooks) (args : list value) :
  run s [Open args; Close] = s <->
  isOpen s = false /\
  formType s = default_param (arg 0 args) (VStr "general").
Proof.
  unfold run. cbn [fold_left]. rewrite !dispatch_perform.
  destruct s as [o t]. cbn [isOpen formType]. split.
  - intro H. injection H as Ho Ht. split; congruence.
  - intros [-> ->]. reflexivity.
Qed.

(** ** Trees in general *)

(** Induction on trees, with the hypothesis for every child. *)
Lemma element_children_ind (P : element -> Prop)
  (HEl : forall tag ks, Forall P ks -> P (El tag ks))
  (HComponent : forall name, P (Component name))
  (HButton : forall c ks, Forall P ks -> P (Button c ks))
  (HRoute : forall p e, P e -> P (Route p e))
  (HProvider : forall c ks, Forall P ks -> P (Provider c ks))
  (HForm : forall o c t, P (ContactForm o c t)) :
  forall e, P e.
Proof.
  fix IH 1.
  assert (Hall : forall ks, Forall P ks).
  { fix IHks 1. intros [|k ks]; constructor; [apply IH | apply IHks]. }
  intros [tag ks|name|c ks|p e|c ks|o c t].
  - apply HEl, Hall.
  - apply HComponent.
  - apply HButton, Hall.
  - apply HRoute, IH.
  - apply HProvider, Hall.
  - apply HForm.
Qed.

Lemma list_sum_zero (l : list nat) :
  list_sum l = 0 -> Forall (fun n => n = 0) l.
Proof.
  induction l as [|n l IH]; intro H; constructor;
    unfold list_sum in *; cbn [fold_right] in H; [lia|].
  apply IH. lia.
Qed.

Lemma list_sum_all_zero {A : Type} (f : A -> nat) (l : list A) :
  Forall (fun a => f a = 0) l -> list_sum (map f l) = 0.
Proof.
  induction 1 as [|a l Ha _ IH]; [reflexivity|].
  cbn [map]. change (f a + list_sum (map f l) = 0). lia.
Qed.

Lemma Forall_flat_map {A B : Type} (P : B -> Prop) (f : A -> list B)
  (l : list A) :
  Forall (fun a => Forall P (f a)) l -> Forall P (flat_map f l).
Proof.
  induction 1 as [|a l Ha _ IH]; cbn [flat_map]; [constructor|].
  apply Forall_app. split; assumption.
Qed.

(** Below no provider, every trigger site reads the context from above. *)
Lemma contexts_without_provider (e : element) :
  forall above : option hooks,
    count_providers e = 0 ->
    Forall (fun c => c = above) (contexts above e).
Proof.
  induction e as [tag ks IH|name|c ks IH|p e IH|c ks IH|o c t]
    using element_children_ind;
    intros above H; cbn [contexts count_providers] in *.
  - apply list_sum_zero in H. rewrite Forall_map in H.
    apply Forall_flat_map. rewrite Forall_forall in *.
    intros k Hk. apply (IH k Hk), (H k Hk).
  - repeat constructor.
  - constructor; [reflexivity|].
    apply list_sum_zero in H. rewrite Forall_map in H.
    apply Forall_flat_map. rewrite Forall_forall in *.
    intros k Hk. apply (IH k Hk), (H k Hk).
  - apply IH, H.
  - discriminate.
  - constructor.
Qed.

(** A route table in which no path comes twice matches every route at its
    own path. *)
Lemma matchRoutes_own_path (rs : list element) (p : string) (e : element) :
  NoDup (flat_map (fun r => match r with Route q _ => [q] | _ => [] end) rs) ->
  In (Route p e) rs ->
  matchRoutes p rs = Some e.
Proof.
  induction rs as [|r rs IH]; intros Hnd Hin; [contradiction|].
  destruct Hin as [->|Hin].
  - cbn [matchRoutes]. rewrite String.eqb_refl. reflexivity.
  - destruct r as [tag ks|name|c ks|q e'|c ks|o c t];
      cbn [matchRoutes flat_map app] in *; try (apply IH; assumption).
    inversion Hnd as [|q' l Hnotin Hnd']; subst.
    destruct (String.eqb q p) eqn:E.
    + apply String.eqb_eq in E. subst q. exfalso. apply Hnotin.
      apply in_flat_map. exists (Route p e). split; [exact Hin|].
      left. reflexivity.
    + apply IH; assumption.
Qed.

Lemma routes_paths_NoDup :
  NoDup (flat_map (fun r => match r with Route q _ => [q] | _ => [] end)
                  routes).
Proof.
  cbn. repeat constructor; cbn; intro H;
    repeat match type of H with
           | _ \/ _ => destruct H as [H|H]
           end; try discriminate; contradiction.
Qed.

(** ** The shell and the page, further *)

(** X7: no route of [App] is shadowed by another.  At the path of any route
    of the table, [Routes] renders that route's page, and [App] mounts it as
    the only child of [main]. *)
Theorem routes_all_reachable (s : hooks) (p : string) (e : element)
  (Hroute : In (Route p e) routes) :
  Routes p routes = [e] /\
  subtree [0; 0; 0; 1] (App s p) = Some (El "main" [e]).
Proof.
  assert (H : Routes p routes = [e]).
  { unfold Routes.
    rewrite (matchRoutes_own_path routes p e routes_paths_NoDup Hroute).
    reflexivity. }
  split; [exact H|].
  unfold App, ContactFormProvider. rewrite H. reflexivity.
Qed.

Lemma routes_all_reachable_witness :
  Routes "/contacts" routes = [Contacts].
Proof.
  apply (routes_all_reachable initial "/contacts" Contacts).
  cbn. tauto.
Defined.

(** X8: [ContactFormProvider] around any children that bring no provider of
    their own.  Whatever context is in force outside, every trigger site
    among the children reads the state of this provider; the provider adds
    exactly one form, as its last child, fed with that same state. *)
Theorem ContactFormProvider_shields
  (s : hooks) (above : option hooks) (children : list element)
  (Hplain : Forall (fun k => count_providers k = 0) children) :
  Forall (fun c => c = Some s)
         (contexts above (ContactFormProvider s children)) /\
  count_forms (ContactFormProvider s children) =
    list_sum (map count_forms children) + 1 /\
  count_providers (ContactFormProvider s children) = 1 /\
  subtree [length children] (ContactFormProvider s children) =
    Some (ContactForm (isOpen s) Close (formType s)).
Proof.
  unfold ContactFormProvider. repeat split.
  - cbn [contexts]. rewrite flat_map_app. apply Forall_app. split.
    + apply Forall_flat_map. rewrite Forall_forall in *.
      intros k Hk. apply contexts_without_provider, (Hplain k Hk).
    + constructor.
  - cbn [count_forms]. rewrite map_app, list_sum_app. reflexivity.
  - cbn [count_providers]. rewrite map_app, list_sum_app.
    rewrite (list_sum_all_zero _ _ Hplain). reflexivity.
  - cbn [subtree children_of].
    rewrite nth_error_app2, Nat.sub_diag by lia. reflexivity.
Qed.

Lemma ContactFormProvider_shields_witness :
  Forall (fun c => c = Some initial)
         (contexts (Some {| isOpen := true; formType := VNull |})
                   (ContactFormProvider initial [Contacts])).
Proof.
  apply (ContactFormProvider_shields initial
           (Some {| isOpen := true; formType := VNull |}) [Contacts]).
  repeat constructor.
Defined.

(** X9: the intents the [Contacts] page can ask for are exactly ['general'],
    ['demo'] and ['calculate']: a string is among the three if and only if
    some button of the page, clicked in any state, shows the form with it. *)
Theorem Contacts_requests_exactly_known (i : string) :
  (exists c : call,
      In c (triggers Contacts) /\
      forall s : hooks,
        dispatch (perform c) s = {| isOpen := true; formType := VStr i |})
  <-> In i known_intents.
Proof.
  split.
  - intros [c [Hin H]]. specialize (H initial). cbn in Hin.
    repeat match type of Hin with
           | _ \/ _ => destruct Hin as [Hin|Hin]
           end;
      try contradiction; subst c; cbn in H; injection H as <-; cbn; tauto.
  - intro H. cbn in H.
    destruct H as [<-|[<-|[<-|[]]]];
      match goal with
      | |- context [VStr ?i] => exists (Open [VStr i])
      end; (split; [cbn; tauto | intro s; reflexivity]).
Qed.
